(** * The tool-call example workflow: detector, weather tool, agentic loop

    Shallow embedding of [src/tool-call.workflow.ts] and
    [src/tools/get-weather.tool.ts], and of the routing table the workflow
    class loads from [tool-call.workflow.yaml].

    - [JS]: the fragment of JavaScript values the helper [isToolCall]
      touches (optional chaining, property reads, [Array.prototype.some],
      [String.prototype.startsWith]), and the exceptions of a call.
    - [Detector]: the helper [isToolCall].
    - [Weather]: the tool [GetWeather].
    - [Dispatch]: the tool-dispatch collaborator.
    - [Loop]: the three-place routing table and its runs. *)

From stdpp Require Import gmap strings list.
From Stdlib Require Import Lia.

#[local] Set Warnings "-register-all".

(** ** JavaScript values and exceptions *)

Module JS.

(** Plain data as the LLM collaborator delivers it: what [JSON.parse] can
    produce, and [undefined]. Objects are finite maps from property names to
    values, arrays are lists without holes. *)
Inductive value : Type :=
  | VUndefined
  | VNull
  | VBool (b : bool)
  | VNum (n : Z)
  | VStr (s : string)
  | VArr (items : list value)
  | VObj (fields : gmap string value).

(** What a call can throw. [TypeError] is what the language raises itself;
    the other two belong to the collaborators of the workflow. *)
Inductive exn : Type :=
  | TypeError
  | ValidationError
  | ToolNotFound.

Inductive result (A : Type) : Type :=
  | Ok (a : A)
  | Throw (e : exn).
Arguments Ok {A} a.
Arguments Throw {A} e.

(** Sequencing: an exception of the first computation is the exception of
    the whole; [x ← r; k] is stdpp's notation for it. *)
#[global] Instance result_bind : MBind result := λ A B k r,
  match r with
  | Ok a => k a
  | Throw e => Throw e
  end.

#[global] Instance result_ret : MRet result := λ A a, Ok a.

(** [v === undefined || v === null] *)
Definition nullish (v : value) : bool :=
  match v with
  | VUndefined | VNull => true
  | _ => false
  end.

(** The abstract operation ToBoolean. A number is falsy when it is zero
    (numbers are modelled by integers, so there is no NaN). *)
Definition ToBoolean (v : value) : bool :=
  match v with
  | VUndefined | VNull => false
  | VBool b => b
  | VNum n => negb (n =? 0)%Z
  | VStr s => negb (String.eqb s "")
  | VArr _ | VObj _ => true
  end.

(** [v.k] for a data property [k] that no built-in prototype defines (the
    source reads [parts] and [type]): a [TypeError] on [undefined] and
    [null], the own property of an object, [undefined] everywhere else. *)
Definition get (v : value) (k : string) : result value :=
  match v with
  | VUndefined | VNull => Throw TypeError
  | VObj fields => Ok (default VUndefined (fields !! k))
  | _ => Ok VUndefined
  end.

(** [s.startsWith(search)] on strings: the code units of [search] are the
    first code units of [s]. *)
Definition startsWith (s search : string) : bool := String.prefix search s.

(** [Array.prototype.some]: the callback runs on the elements in index
    order, its result goes through ToBoolean, and the first truthy one ends
    the walk with [true]; an exception of the callback leaves the walk. *)
Fixpoint some (cb : value → result value) (items : list value) : result value :=
  match items with
  | [] => Ok (VBool false)
  | x :: rest =>
      r ← cb x;
      if ToBoolean r then Ok (VBool true) else some cb rest
  end.

(** [this.some(cb)]: reading [some] off [undefined] or [null] throws; an
    array finds [Array.prototype.some]; on any other datum [this.some] is
    [undefined] or data, and calling it throws "is not a function". *)
Definition call_some (this : value) (cb : value → result value) : result value :=
  match this with
  | VArr items => some cb items
  | _ => Throw TypeError
  end.

(** [this.startsWith(search)]: as [call_some], with strings the only data
    that carry the method. *)
Definition call_startsWith (this : value) (search : string) : result value :=
  match this with
  | VStr s => Ok (VBool (startsWith s search))
  | _ => Throw TypeError
  end.

(** A call [f(args)] of a one-parameter function: a missing argument is
    bound to [undefined], further arguments are dropped. *)
Definition apply1 {A : Type} (f : value → A) (args : list value) : A :=
  f (hd VUndefined args).

End JS.

Import JS.

(** ** The helper [isToolCall] *)

Module Detector.

(** [(part: any) => part.type.startsWith('tool-')] *)
Definition isToolPart (part : value) : result value :=
  t ← get part "type";
  call_startsWith t "tool-".

(** [return message?.parts.some((part: any) => part.type.startsWith('tool-'));]
    The optional chain stops at a nullish [message] and yields [undefined];
    it guards nothing after [message]. *)
Definition isToolCall (message : value) : result value :=
  if nullish message then Ok VUndefined
  else
    parts ← get message "parts";
    call_some parts isToolPart.

(** *** Messages of the data model

    A Part is an object tagged by a [type] string; a Message is an object
    whose [parts] is an array of Parts. Both carry further fields freely. *)

Definition part_type (p : value) : option string :=
  match p with
  | VObj fields =>
      match fields !! "type" with
      | Some (VStr t) => Some t
      | _ => None
      end
  | _ => None
  end.

Definition message_parts (m : value) : option (list value) :=
  match m with
  | VObj fields =>
      match fields !! "parts" with
      | Some (VArr ps) => Some ps
      | _ => None
      end
  | _ => None
  end.

Definition is_part (p : value) : bool :=
  match part_type p with Some _ => true | None => false end.

Definition is_message (m : value) : bool :=
  match message_parts m with
  | Some ps => forallb is_part ps
  | None => false
  end.

(** The tag of [p] begins with the literal [tool-]. *)
Definition tool_tagged (p : value) : Prop :=
  ∃ rest : string, part_type p = Some ("tool-" +:+ rest).

(** "At least one of the message's parts has a [type] beginning with the
    literal prefix [tool-]". *)
Definition has_tool_part (m : value) : Prop :=
  ∃ ps p, message_parts m = Some ps ∧ p ∈ ps ∧ tool_tagged p.

(** The same test, computed: used to pick the tool-call parts of a message. *)
Definition is_tool_part (p : value) : bool :=
  match part_type p with
  | Some t => startsWith t "tool-"
  | None => false
  end.

Definition tool_parts (m : value) : list value :=
  match message_parts m with
  | Some ps => filter (λ p, is_tool_part p = true) ps
  | None => []
  end.

End Detector.

Import Detector.

(** ** The tool [GetWeather] *)

Module Weather.

(** [ToolResult] of the framework, as the tool builds it: [{type, data}]. *)
Record ToolResult : Type := { type : string; data : value }.

(** What a tool class brings: the description of its [@BlockConfig], the
    schema of its [@WithArguments], and [execute]. A promise that resolves
    is [Ok], one that rejects is [Throw]. [execute] is handed the arguments
    of the call whether or not the method binds them. *)
Record Tool : Type := {
  description : string;
  arguments : value → bool;
  execute : value → result ToolResult
}.

(** [z.object({ location: z.string() })] *)
Definition location_schema (args : value) : bool :=
  match args with
  | VObj fields =>
      match fields !! "location" with
      | Some (VStr _) => true
      | _ => false
      end
  | _ => false
  end.

(** [async execute(): Promise<ToolResult>]: no parameter is bound, nothing
    is awaited, the literal is returned. *)
Definition GetWeather : Tool := {|
  description := "Retrieve weather information.";
  arguments := location_schema;
  execute := λ _,
    Ok {| type := "text"; data := VStr "Mostly sunny, 14C, rain in the afternoon." |}
|}.

End Weather.

Import Weather.

(** ** The tool-dispatch collaborator *)

Module Dispatch.

(** The rest of [s] after the prefix [p], when [s] starts with [p]. *)
Fixpoint strip_prefix (p s : string) : option string :=
  match p, s with
  | EmptyString, _ => Some s
  | String c p', String d s' => if decide (c = d) then strip_prefix p' s' else None
  | String _ _, EmptyString => None
  end.

(** The [<Name>] of a part tagged [tool-<Name>]. *)
Definition tool_name (part : value) : option string :=
  t ← part_type part; strip_prefix "tool-" t.

(** [toolCallId], [state] and [output] of a part: plain property reads. *)
Definition field (k : string) (part : value) : value :=
  match part with
  | VObj fields => default VUndefined (fields !! k)
  | _ => VUndefined
  end.

(** The output payload [{type, value}] made of a tool's result. *)
Definition output_of (r : ToolResult) : value :=
  VObj {[ "type" := VStr (type r); "value" := data r ]}.

Section Dispatcher.

(** The registered tool set: tool name to implementation. *)
Variable registry : gmap string Tool.

(** Modelled from the spec: the dispatcher [DelegateToolCall] belongs to the
    framework's ai-module and is not among the sources; the tests replace
    it by a mock. One tool-call part is resolved by name against the
    registry, its [input] is checked against the tool's argument schema
    before [execute] runs, and the part comes back with the lifecycle state
    [output-available] and the tool's output, its other fields kept. A name
    that resolves to nothing fails the dispatch. *)
Definition executePart (part : value) : result value :=
  match part, tool_name part with
  | VObj fields, Some name =>
      match registry !! name with
      | Some tool =>
          let input := field "input" part in
          if arguments tool input then
            r ← execute tool input;
            Ok (VObj (<["state" := VStr "output-available"]>
                       (<["output" := output_of r]> fields)))
          else Throw ValidationError
      | None => Throw ToolNotFound
      end
  | _, _ => Throw TypeError
  end.

(** Modelled from the spec: [dispatch(message) -> {data: Message}]. Every
    [tool-<Name>] part of the message is executed, in order, and the
    outputs make the parts of one result message. *)
Definition dispatch (message : value) : result value :=
  outputs ← mapM executePart (tool_parts message);
  Ok (VObj {[ "parts" := VArr outputs ]}).

End Dispatcher.

(** The tools the workflow class registers with [@Tool()] and hands to the
    LLM: [getWeather: GetWeather], named as the parts of the tests tag it. *)
Definition tools : gmap string Tool := {[ "GetWeather" := GetWeather ]}.

End Dispatch.

(** ** The agentic loop *)

Module Loop.

Inductive place : Type := ready | prompt_executed | end_.

#[global] Instance place_eq_dec : EqDecision place.
Proof. solve_decision. Defined.

(** [@WithState(z.object({ llmResponse: z.any(), toolCallResult: z.any() }))] *)
Record WorkflowState : Type := { llmResponse : value; toolCallResult : value }.

(** The two collaborators a transition calls, with their [assign]. *)
Inductive toolCall : Type :=
  | aiGenerateText      (* assign: llmResponse: ${ result.data } *)
  | delegateToolCall.   (* args: message: ${ llmResponse }; assign: toolCallResult: ${ result.data } *)

(** One row of the routing table: [id], [from], [to], the optional [if]
    expression over the workflow state, and the tool it calls. *)
Record transition : Type := {
  tid : string;
  from : place;
  to : place;
  condition : option (WorkflowState → result value);
  call : option toolCall
}.

(** Modelled from the spec: [tool-call.workflow.yaml] is not among the
    sources; the README quotes its two routes out of [prompt_executed] and
    the two tool calls, and the spec gives the LLM turn out of [ready]. The
    documents the transitions create on the side are left out. *)
Definition llm_turn : transition := {|
  tid := "llm_turn"; from := ready; to := prompt_executed;
  condition := None; call := Some aiGenerateText
|}.

(** [if: "{{ isToolCall llmResponse }}"] *)
Definition route_with_tool_calls : transition := {|
  tid := "route_with_tool_calls"; from := prompt_executed; to := ready;
  condition := Some (λ st, isToolCall (llmResponse st));
  call := Some delegateToolCall
|}.

Definition route_without_tool_calls : transition := {|
  tid := "route_without_tool_calls"; from := prompt_executed; to := end_;
  condition := None; call := None
|}.

Definition transitions : list transition :=
  [llm_turn; route_with_tool_calls; route_without_tool_calls].

(** A run in progress: where it stands, its state, the places it has
    visited, and what it has asked of the collaborators so far. *)
Record Run : Type := {
  at_ : place;
  state : WorkflowState;
  places : list place;
  generateCalls : nat;
  dispatchCalls : list value
}.

Definition initial : Run := {|
  at_ := ready;
  state := {| llmResponse := VUndefined; toolCallResult := VUndefined |};
  places := [ready];
  generateCalls := 0;
  dispatchCalls := []
|}.

Definition assign_llmResponse (data : value) (r : Run) : Run := {|
  at_ := at_ r;
  state := {| llmResponse := data; toolCallResult := toolCallResult (state r) |};
  places := places r;
  generateCalls := S (generateCalls r);
  dispatchCalls := dispatchCalls r
|}.

Definition assign_toolCallResult (data : value) (r : Run) : Run := {|
  at_ := at_ r;
  state := {| llmResponse := llmResponse (state r); toolCallResult := data |};
  places := places r;
  generateCalls := generateCalls r;
  dispatchCalls := dispatchCalls r ++ [llmResponse (state r)]
|}.

Definition goto (p : place) (r : Run) : Run := {|
  at_ := p;
  state := state r;
  places := places r ++ [p];
  generateCalls := generateCalls r;
  dispatchCalls := dispatchCalls r
|}.

(** "isToolCall holds of the latest LLM response": the helper returns a
    truthy value; it "does not hold" when the helper returns a falsy one. *)
Definition detected (r : Run) : Prop :=
  ∃ v, isToolCall (llmResponse (state r)) = Ok v ∧ ToBoolean v = true.

Definition undetected (r : Run) : Prop :=
  ∃ v, isToolCall (llmResponse (state r)) = Ok v ∧ ToBoolean v = false.

Section Controller.

(** The LLM-generation collaborator, as the controller sees it: the message
    its [n]-th call resolves to, or the exception it rejects with. *)
Variable generate : nat → result value.

(** The tool-dispatch collaborator. *)
Variable dispatch : value → result value.

Definition perform (c : toolCall) (r : Run) : result Run :=
  match c with
  | aiGenerateText =>
      data ← generate (generateCalls r);
      Ok (assign_llmResponse data r)
  | delegateToolCall =>
      data ← dispatch (llmResponse (state r));
      Ok (assign_toolCallResult data r)
  end.

(** Modelled from the spec: the workflow engine is the framework's. A row is
    enabled at its [from] place when it has no condition or its condition
    evaluates to a truthy value; an exception of the helper fails the run. *)
Definition enabled (t : transition) (r : Run) : result bool :=
  if decide (from t = at_ r) then
    match condition t with
    | Some c => v ← c (state r); Ok (ToBoolean v)
    | None => Ok true
    end
  else Ok false.

(** The first enabled row, in table order. *)
Fixpoint select (table : list transition) (r : Run) : result (option transition) :=
  match table with
  | [] => Ok None
  | t :: rest =>
      b ← enabled t r;
      if (b : bool) then Ok (Some t) else select rest r
  end.

Definition fire (t : transition) (r : Run) : result Run :=
  r' ← match call t with
       | Some c => perform c r
       | None => Ok r
       end;
  Ok (goto (to t) r').

(** One step of the controller; a place no row leaves is terminal. *)
Definition step (r : Run) : result Run :=
  t ← select transitions r;
  match t with
  | Some t => fire t r
  | None => Ok r
  end.

(** [fuel] steps from [r]; the run has finished when it stands at [end_]. *)
Fixpoint run (fuel : nat) (r : Run) : result Run :=
  match fuel with
  | 0 => Ok r
  | S fuel' => r' ← step r; run fuel' r'
  end.

(** A loop that is fed tool calls for ever: the invariant of its runs. *)
Definition looping (r : Run) : Prop :=
  at_ r = ready
  ∨ (at_ r = prompt_executed ∧ detected r
     ∧ ∃ data, dispatch (llmResponse (state r)) = Ok data).

End Controller.

End Loop.

Import Loop.

(** ** Messages of the test suite *)

Module Fixtures.

Definition messageWithToolCall : value :=
  VObj {[ "parts" := VArr [
    VObj {[ "type" := VStr "tool-GetWeather"; "toolCallId" := VStr "123" ]} ] ]}.

Definition messageWithoutToolCall : value :=
  VObj {[ "parts" := VArr [
    VObj {[ "type" := VStr "text"; "text" := VStr "Hello" ]} ] ]}.

Definition berlin : value := VObj {[ "location" := VStr "Berlin" ]}.
Definition munich : value := VObj {[ "location" := VStr "Munich" ]}.

Definition toolCallPart (id : string) (input : value) : value :=
  VObj {[ "type" := VStr "tool-GetWeather"; "toolCallId" := VStr id;
          "input" := input; "state" := VStr "input-available" ]}.

Definition toolResultPart (id : string) (input : value) (text : string) : value :=
  VObj {[ "type" := VStr "tool-GetWeather"; "toolCallId" := VStr id;
          "input" := input; "state" := VStr "output-available";
          "output" := VObj {[ "type" := VStr "text"; "value" := VStr text ]} ]}.

Definition assistant (parts : list value) : value :=
  VObj {[ "role" := VStr "assistant"; "parts" := VArr parts ]}.

Definition textPart (text : string) : value :=
  VObj {[ "type" := VStr "text"; "text" := VStr text ]}.

Definition mockLlmResponseWithToolCall : value :=
  assistant [toolCallPart "tool_call_1" berlin].

Definition mockToolCallResult : value :=
  VObj {[ "parts" := VArr [
    toolResultPart "tool_call_1" berlin "Weather in Berlin: 15°C, partly cloudy" ] ]}.

Definition mockFinalLlmResponse : value :=
  assistant [textPart "The weather in Berlin is currently 15°C and partly cloudy."].

Definition mockLlmResponseNoToolCall : value :=
  assistant [textPart "I cannot check the weather without access to weather tools."].

Definition mockLlmResponseWithMultipleToolCalls : value :=
  assistant [toolCallPart "tool_call_1" berlin; toolCallPart "tool_call_2" munich].

Definition mockFinalResponse : value :=
  assistant [textPart "Berlin: 15°C partly cloudy. Munich: 18°C sunny."].

End Fixtures.

(** The collaborators as the tests mock them. *)
Module Mocks.

(** [mockResolvedValueOnce(first).mockResolvedValueOnce(second)]: a third
    call resolves to [undefined], and reading [result.data] off it throws. *)
Definition resolvedOnce (first second : value) (n : nat) : result value :=
  match n with
  | 0 => Ok first
  | 1 => Ok second
  | _ => Throw TypeError
  end.

(** [mockResolvedValue(data)] *)
Definition resolved {A : Type} (data : value) (_ : A) : result value := Ok data.

End Mocks.

(** ** Vocabulary of the further properties *)

Module Shape.

(** A well-formed Part whose tag does not begin with [tool-]: the callback
    of the detector returns [false] on it and the walk goes on. *)
Definition is_plain_part (p : value) : bool :=
  is_part p && negb (is_tool_part p).

(** [k] turns of the loop: [ready], [prompt_executed], [k] times over. *)
Definition rounds (k : nat) : list place :=
  concat (replicate k [ready; prompt_executed]).

(** The helper returns a truthy value on [m]; a falsy one. *)
Definition truthy_on (m : value) : Prop :=
  ∃ v, isToolCall m = Ok v ∧ ToBoolean v = true.

Definition falsy_on (m : value) : Prop :=
  ∃ v, isToolCall m = Ok v ∧ ToBoolean v = false.

(** What holds of a run in progress, at each place, with [k] the number of
    dispatch calls made so far: the dispatched messages are the first [k]
    LLM responses, each with a truthy helper; the path is whole rounds. *)
Definition run_invariant (generate : nat → result value) (r : Run) : Prop :=
  let k := length (dispatchCalls r) in
  (∀ i m, dispatchCalls r !! i = Some m → generate i = Ok m ∧ truthy_on m)
  ∧ match at_ r with
    | ready => generateCalls r = k ∧ places r = rounds k ++ [ready]
    | prompt_executed =>
        generateCalls r = S k
        ∧ places r = rounds (S k)
        ∧ generate k = Ok (llmResponse (state r))
    | end_ =>
        generateCalls r = S k
        ∧ places r = rounds (S k) ++ [end_]
        ∧ generate k = Ok (llmResponse (state r))
        ∧ falsy_on (llmResponse (state r))
    end.

(** The run of the first tool-call test, step by step: a turn with tool
    calls, their dispatch, a final turn. *)
Definition testRun (first second data : value) : Run :=
  goto end_ (goto prompt_executed (assign_llmResponse second
    (goto ready (assign_toolCallResult data
      (goto prompt_executed (assign_llmResponse first initial)))))).

End Shape.

Import Shape.

(** * Proofs *)

(** ** Properties of the detector *)

Section DetectorFacts.

Lemma prefix_append (p r : string) : String.prefix p (p +:+ r) = true.
Proof.
  induction p as [|c p IH]; simpl.
  - by destruct r.
  - destruct (Ascii.ascii_dec c c) as [_|Hne]; [exact IH | by destruct Hne].
Qed.

Lemma prefix_split (p s : string) :
  String.prefix p s = true → ∃ r, s = p +:+ r.
Proof.
  revert s. induction p as [|c p IH]; intros s H.
  - by exists s.
  - destruct s as [|d s]; simpl in H; [done|].
    destruct (Ascii.ascii_dec c d) as [->|_]; [|done].
    destruct (IH s H) as [r ->]. by exists r.
Qed.

Lemma startsWith_spec (s p : string) :
  startsWith s p = true ↔ ∃ r, s = p +:+ r.
Proof.
  unfold startsWith. split.
  - apply prefix_split.
  - intros [r ->]. apply prefix_append.
Qed.

Lemma is_tool_part_spec (p : value) : is_tool_part p = true ↔ tool_tagged p.
Proof.
  unfold is_tool_part, tool_tagged. destruct (part_type p) as [t|].
  - rewrite startsWith_spec. split.
    + intros [r ->]. by exists r.
    + intros [r [= ->]]. by exists r.
  - split; [done | by intros [r Hr]].
Qed.

(** On a Part the callback returns the boolean [is_tool_part]. *)
Lemma isToolPart_part (p : value) :
  is_part p = true → isToolPart p = Ok (VBool (is_tool_part p)).
Proof.
  unfold is_part, is_tool_part, isToolPart, part_type.
  destruct p as [| | | | | |fields]; try done.
  simpl. destruct (fields !! "type") as [[]|]; simpl; done.
Qed.

(** On an array of Parts [some] is [existsb] of the tag test. *)
Lemma some_parts (ps : list value) :
  forallb is_part ps = true →
  some isToolPart ps = Ok (VBool (existsb is_tool_part ps)).
Proof.
  induction ps as [|p ps IH]; simpl; [done|].
  intros [Hp Hps]%andb_prop. rewrite (isToolPart_part p Hp). simpl.
  destruct (is_tool_part p); [done | by apply IH].
Qed.

Lemma isToolCall_message (m : value) (ps : list value) :
  message_parts m = Some ps → forallb is_part ps = true →
  isToolCall m = Ok (VBool (existsb is_tool_part ps)).
Proof.
  unfold message_parts, isToolCall.
  destruct m as [| | | | | |fields]; try done.
  simpl. destruct (fields !! "parts") as [[]|]; try done.
  intros [= ->] Hps. simpl. by apply some_parts.
Qed.

Lemma existsb_tool_part (m : value) (ps : list value) :
  message_parts m = Some ps →
  existsb is_tool_part ps = true ↔ has_tool_part m.
Proof.
  intros Hm. rewrite existsb_exists. unfold has_tool_part. split.
  - intros (p & Hin & Hp). exists ps, p.
    by rewrite list_elem_of_In, <- is_tool_part_spec.
  - intros (ps' & p & Hm' & Hin & Hp). rewrite Hm in Hm'. injection Hm' as <-.
    exists p. by rewrite <- list_elem_of_In, is_tool_part_spec.
Qed.

(** A Message makes the detector return a boolean, [true] exactly when one
    of its parts is tagged [tool-...]. *)
Lemma isToolCall_message_bool (m : value) :
  is_message m = true →
  ∃ b : bool, isToolCall m = Ok (VBool b) ∧ (b = true ↔ has_tool_part m).
Proof.
  unfold is_message. destruct (message_parts m) as [ps|] eqn:Hm; [|done].
  intros Hps. exists (existsb is_tool_part ps). split.
  - by apply isToolCall_message.
  - by apply existsb_tool_part.
Qed.

End DetectorFacts.

(** The two expectations of the helper test. *)
Example isToolCall_messageWithToolCall :
  isToolCall Fixtures.messageWithToolCall = Ok (VBool true).
Proof. reflexivity. Qed.

Example isToolCall_messageWithoutToolCall :
  isToolCall Fixtures.messageWithoutToolCall = Ok (VBool false).
Proof. reflexivity. Qed.

(** ** Claims on the detector *)

(** C1. On every Message the detector returns a boolean, and that boolean is
    [true] if and only if at least one part has a [type] string that starts
    with [tool-]; on a Message with no parts it is [false]. *)
Theorem isToolCall_iff_tool_part (m : value) :
  is_message m = true →
  ∃ b : bool,
    isToolCall m = Ok (VBool b)
    ∧ (b = true ↔ has_tool_part m)
    ∧ (message_parts m = Some [] → b = false).
Proof.
  unfold is_message. destruct (message_parts m) as [ps|] eqn:Hm; [|done].
  intros Hps. exists (existsb is_tool_part ps). split_and!.
  - by apply isToolCall_message.
  - by apply existsb_tool_part.
  - by intros [= ->].
Qed.

Lemma isToolCall_iff_tool_part_witness :
  is_message Fixtures.messageWithToolCall = true
  ∧ ∃ b : bool,
      isToolCall Fixtures.messageWithToolCall = Ok (VBool b)
      ∧ (b = true ↔ has_tool_part Fixtures.messageWithToolCall)
      ∧ (message_parts Fixtures.messageWithToolCall = Some [] → b = false).
Proof.
  split; [reflexivity|].
  apply (isToolCall_iff_tool_part Fixtures.messageWithToolCall). reflexivity.
Defined.

(** C7, as stated: on every Message and on [undefined] the detector returns
    a boolean. It fails at [undefined], where the optional chain yields
    [undefined] itself. *)
Lemma isToolCall_undefined_not_boolean :
  ¬ (∀ m : value, is_message m = true ∨ m = VUndefined →
       ∃ b : bool, isToolCall m = Ok (VBool b)).
Proof.
  intros H. destruct (H VUndefined) as [b Hb]; [by right|]. discriminate Hb.
Qed.

(** C7, amended: on every Message the detector returns a boolean; on
    [undefined] it returns [undefined], which is falsy but not a boolean. *)
Theorem isToolCall_boolean_or_undefined (m : value) :
  is_message m = true ∨ m = VUndefined →
  (is_message m = true ∧ ∃ b : bool, isToolCall m = Ok (VBool b))
  ∨ (m = VUndefined ∧ isToolCall m = Ok VUndefined ∧ ToBoolean VUndefined = false).
Proof.
  intros [Hm | ->].
  - left. split; [done|].
    unfold is_message in Hm. destruct (message_parts m) as [ps|] eqn:Hps; [|done].
    eexists. by apply isToolCall_message.
  - by right.
Qed.

Lemma isToolCall_boolean_or_undefined_witness :
  (is_message Fixtures.messageWithoutToolCall = true
   ∧ ∃ b : bool, isToolCall Fixtures.messageWithoutToolCall = Ok (VBool b))
  ∨ (Fixtures.messageWithoutToolCall = VUndefined
     ∧ isToolCall Fixtures.messageWithoutToolCall = Ok VUndefined
     ∧ ToBoolean VUndefined = false).
Proof.
  apply (isToolCall_boolean_or_undefined Fixtures.messageWithoutToolCall).
  left. reflexivity.
Defined.

(** C8. Called on [undefined], or with no argument at all, the detector
    throws nothing and returns a falsy value. *)
Theorem isToolCall_undefined_falsy :
  ∀ r : result value,
    r = isToolCall VUndefined ∨ r = apply1 isToolCall [] →
    ∃ v : value, r = Ok v ∧ ToBoolean v = false.
Proof. intros r [-> | ->]; by exists VUndefined. Qed.

Lemma isToolCall_undefined_falsy_witness :
  ∃ v : value, apply1 isToolCall [] = Ok v ∧ ToBoolean v = false.
Proof.
  apply (isToolCall_undefined_falsy (apply1 isToolCall [])). right. reflexivity.
Defined.

(** C10. The guard of the optional chain covers the message only: on a value
    that is neither [undefined] nor [null] and whose [parts] is [undefined],
    the detector throws a [TypeError]. *)
Theorem isToolCall_parts_undefined_throws (m : value) :
  nullish m = false →
  get m "parts" = Ok VUndefined →
  isToolCall m = Throw TypeError.
Proof.
  intros Hm Hparts. unfold isToolCall. rewrite Hm, Hparts. reflexivity.
Qed.

Lemma isToolCall_parts_undefined_throws_witness :
  nullish (VObj {[ "role" := VStr "assistant" ]}) = false
  ∧ get (VObj {[ "role" := VStr "assistant" ]}) "parts" = Ok VUndefined
  ∧ isToolCall (VObj {[ "role" := VStr "assistant" ]}) = Throw TypeError.
Proof.
  split; [reflexivity|]. split; [reflexivity|].
  apply (isToolCall_parts_undefined_throws (VObj {[ "role" := VStr "assistant" ]}));
    reflexivity.
Defined.

(** ** Claim on the weather tool *)

(** C3. Whatever it is called with, [GetWeather.execute] resolves to
    [{type: "text", data: "Mostly sunny, 14C, rain in the afternoon."}]: the
    result does not depend on the arguments and no call throws. *)
Theorem GetWeather_execute_fixed (args : value) :
  execute GetWeather args
    = Ok {| type := "text"; data := VStr "Mostly sunny, 14C, rain in the afternoon." |}
  ∧ (∀ args' : value, execute GetWeather args' = execute GetWeather args)
  ∧ (∀ e : exn, execute GetWeather args ≠ Throw e).
Proof. split_and!; [reflexivity | reflexivity | discriminate]. Qed.

Ltac unfold_step :=
  unfold Loop.step, select, transitions, enabled, fire, perform,
    llm_turn, route_with_tool_calls, route_without_tool_calls; simpl.

(** ** Steps of the controller *)

Section Steps.

Variable generate : nat → result value.
Variable dispatch : value → result value.

Abbreviation step := (Loop.step generate dispatch).
Abbreviation run := (Loop.run generate dispatch).

Lemma step_ready (r : Run) (data : value) :
  at_ r = ready → generate (generateCalls r) = Ok data →
  step r = Ok (goto prompt_executed (assign_llmResponse data r)).
Proof.
  intros Hat Hgen. destruct r as [p st h g d]; simpl in *; subst.
  unfold_step. by rewrite Hgen.
Qed.

Lemma step_ready_throw (r : Run) (e : exn) :
  at_ r = ready → generate (generateCalls r) = Throw e → step r = Throw e.
Proof.
  intros Hat Hgen. destruct r as [p st h g d]; simpl in *; subst.
  unfold_step. by rewrite Hgen.
Qed.

Lemma step_detected (r : Run) :
  at_ r = prompt_executed → detected r →
  step r = (data ← dispatch (llmResponse (state r));
            Ok (goto ready (assign_toolCallResult data r))).
Proof.
  intros Hat (v & Hv & Htrue). destruct r as [p st h g d]; simpl in *; subst.
  unfold_step. rewrite Hv. simpl. rewrite Htrue. simpl.
  by destruct (dispatch _).
Qed.

Lemma step_undetected (r : Run) :
  at_ r = prompt_executed → undetected r → step r = Ok (goto end_ r).
Proof.
  intros Hat (v & Hv & Hfalse). destruct r as [p st h g d]; simpl in *; subst.
  unfold_step. rewrite Hv. simpl. by rewrite Hfalse.
Qed.

Lemma step_helper_throw (r : Run) (e : exn) :
  at_ r = prompt_executed → isToolCall (llmResponse (state r)) = Throw e →
  step r = Throw e.
Proof.
  intros Hat He. destruct r as [p st h g d]; simpl in *; subst.
  unfold_step. by rewrite He.
Qed.

Lemma step_end (r : Run) : at_ r = end_ → step r = Ok r.
Proof.
  intros Hat. destruct r as [p st h g d]; simpl in *; subst. by unfold_step.
Qed.

(** A finished run stays where it is, whatever fuel is left. *)
Lemma run_end (fuel : nat) (r : Run) : at_ r = end_ → run fuel r = Ok r.
Proof.
  intros Hat. induction fuel as [|fuel IH]; simpl; [done|].
  by rewrite step_end.
Qed.

Lemma run_split (n k : nat) (r : Run) :
  run (n + k) r = (r' ← run n r; run k r').
Proof.
  revert r. induction n as [|n IH]; intros r; simpl; [done|].
  destruct (step r) as [r'|e]; simpl; [apply IH | done].
Qed.

(** The helper of the guard, case by case. *)
Lemma detector_cases (r : Run) :
  detected r ∨ undetected r ∨ ∃ e, isToolCall (llmResponse (state r)) = Throw e.
Proof.
  unfold detected, undetected.
  destruct (isToolCall (llmResponse (state r))) as [v|e]; [|by eauto].
  destruct (ToBoolean v) eqn:Hv; eauto.
Qed.

Lemma detected_not_undetected (r : Run) : detected r → undetected r → False.
Proof. intros (v & Hv & Ht) (w & Hw & Hf). congruence. Qed.

End Steps.

(** On Messages the guard is the tag test. *)
Lemma detected_message (r : Run) :
  is_message (llmResponse (state r)) = true →
  detected r ↔ has_tool_part (llmResponse (state r)).
Proof.
  intros Hm. destruct (isToolCall_message_bool _ Hm) as (b & Hb & Hiff).
  unfold detected. rewrite Hb. split.
  - intros (v & [= <-] & Hv). by apply Hiff.
  - intros Hp. exists (VBool b). split; [done|]. by apply Hiff.
Qed.

Lemma undetected_message (r : Run) :
  is_message (llmResponse (state r)) = true →
  undetected r ↔ ¬ has_tool_part (llmResponse (state r)).
Proof.
  intros Hm. destruct (isToolCall_message_bool _ Hm) as (b & Hb & Hiff).
  unfold undetected. rewrite Hb. split.
  - intros (v & [= <-] & Hv) Hp. apply Hiff in Hp. simpl in Hv. congruence.
  - intros Hp. exists (VBool b). split; [done|]. simpl.
    destruct b; [|done]. by destruct Hp; apply Hiff.
Qed.

(** The tool-call parts of a message are empty exactly when no part is
    tagged [tool-...]. *)
Lemma tool_parts_nil (m : value) : tool_parts m = [] ↔ ¬ has_tool_part m.
Proof.
  unfold tool_parts, has_tool_part.
  destruct (message_parts m) as [ps|] eqn:Hm.
  - split.
    + intros Hnil (ps' & p & [= <-] & Hin & Hp).
      apply is_tool_part_spec in Hp.
      assert (p ∈ filter (λ p, is_tool_part p = true) ps) as Hf
        by (by apply list_elem_of_filter).
      rewrite Hnil in Hf. by apply not_elem_of_nil in Hf.
    + intros Hno. destruct (filter _ ps) as [|p l] eqn:Hf; [done|].
      destruct Hno. exists ps, p. split; [done|].
      assert (p ∈ filter (λ p, is_tool_part p = true) ps) as Hin
        by (rewrite Hf; apply list_elem_of_here).
      apply list_elem_of_filter in Hin as [Hp Hin].
      split; [done | by apply is_tool_part_spec].
  - split; [|done]. by intros _ (ps & p & [=] & _).
Qed.

Lemma tool_parts_cons (m p : value) (l : list value) :
  tool_parts m = p :: l → has_tool_part m.
Proof.
  intros Hm. destruct (tool_parts m) as [|q l'] eqn:Hq; [done|].
  unfold tool_parts in Hq. destruct (message_parts m) as [ps|] eqn:Hps; [|done].
  exists ps, q.
  assert (q ∈ filter (λ p, is_tool_part p = true) ps) as Hin
    by (rewrite Hq; apply list_elem_of_here).
  apply list_elem_of_filter in Hin as [Hp Hin].
  split; [done|]. split; [done | by apply is_tool_part_spec].
Qed.

(** ** Runs of the controller *)

Section Runs.

Variable generate : nat → result value.
Variable dispatch : value → result value.

Abbreviation step := (Loop.step generate dispatch).
Abbreviation run := (Loop.run generate dispatch).
Abbreviation looping := (Loop.looping dispatch).

(** Which row leaves [prompt_executed]. *)
Lemma select_prompt_executed (r : Run) :
  at_ r = prompt_executed →
  (select transitions r = Ok (Some route_with_tool_calls) ↔ detected r)
  ∧ (select transitions r = Ok (Some route_without_tool_calls) ↔ undetected r).
Proof.
  intros Hat. destruct r as [p st h g d]; simpl in *; subst.
  unfold detected, undetected, select, transitions, enabled,
    llm_turn, route_with_tool_calls, route_without_tool_calls. simpl.
  destruct (isToolCall (llmResponse st)) as [v|e]; simpl.
  - destruct (ToBoolean v) eqn:Hv; simpl; split; split.
    + intros _. by exists v.
    + done.
    + discriminate.
    + intros (w & [= <-] & Hw). congruence.
    + discriminate.
    + intros (w & [= <-] & Hw). congruence.
    + intros _. by exists v.
    + done.
  - split; split; try discriminate; by intros (w & Hw & _).
Qed.

(** The first turn: one LLM call, then the guard on its response. *)
Lemma run_first_turn (response : value) :
  generate 0 = Ok response →
  step initial = Ok (goto prompt_executed (assign_llmResponse response initial)).
Proof. intros Hgen. by apply step_ready. Qed.

Hypothesis always_tool_call :
  ∀ n, ∃ m data,
    generate n = Ok m
    ∧ (∃ v, isToolCall m = Ok v ∧ ToBoolean v = true)
    ∧ dispatch m = Ok data.

Lemma step_looping (r : Run) : looping r → ∃ r', step r = Ok r' ∧ looping r'.
Proof.
  intros [Hat | (Hat & Hdet & data & Hdata)].
  - destruct (always_tool_call (generateCalls r)) as (m & data & Hm & Hv & Hd).
    eexists. split; [by apply step_ready|].
    right. split; [done|]. split; [exact Hv | by exists data].
  - eexists. split.
    + rewrite step_detected by done. rewrite Hdata. reflexivity.
    + by left.
Qed.

Lemma run_looping (fuel : nat) (r : Run) :
  looping r → ∃ r', run fuel r = Ok r' ∧ looping r'.
Proof.
  revert r. induction fuel as [|fuel IH]; intros r Hr; simpl.
  - by exists r.
  - destruct (step_looping r Hr) as (r1 & -> & Hr1). simpl. by apply IH.
Qed.

Lemma looping_not_end (r : Run) : looping r → at_ r ≠ end_.
Proof. intros [Hat | (Hat & _)]; congruence. Qed.

End Runs.

(** ** Claims on the loop controller *)

(** C2. From [prompt_executed] the routing table picks the row back to
    [ready], whose firing calls the tool-dispatch collaborator on the latest
    LLM response and stores its result, exactly when [isToolCall] holds of
    that response; it picks the row to the terminal [end_], which calls
    nothing, exactly when [isToolCall] does not hold. *)
Theorem prompt_executed_routes
    (generate : nat → result value) (dispatch : value → result value) (r : Run) :
  at_ r = prompt_executed →
  (select transitions r = Ok (Some route_with_tool_calls) ↔ detected r)
  ∧ (select transitions r = Ok (Some route_without_tool_calls) ↔ undetected r)
  ∧ (detected r →
       Loop.step generate dispatch r
       = (data ← dispatch (llmResponse (state r));
          Ok (goto ready (assign_toolCallResult data r))))
  ∧ (undetected r → Loop.step generate dispatch r = Ok (goto end_ r))
  ∧ ((∃ r', Loop.step generate dispatch r = Ok r' ∧ at_ r' = ready)
       ↔ detected r ∧ ∃ data, dispatch (llmResponse (state r)) = Ok data)
  ∧ ((∃ r', Loop.step generate dispatch r = Ok r' ∧ at_ r' = end_)
       ↔ undetected r).
Proof.
  intros Hat. destruct (select_prompt_executed r Hat) as [Hwith Hwithout].
  split_and!; try done.
  - by apply step_detected.
  - by apply step_undetected.
  - split.
    + intros (r' & Hstep & Hr').
      destruct (detector_cases r) as [Hd | [Hu | [e He]]].
      * split; [done|]. rewrite step_detected in Hstep by done.
        destruct (dispatch _) as [data|]; [by exists data | done].
      * rewrite step_undetected in Hstep by done.
        injection Hstep as <-. done.
      * by rewrite (step_helper_throw _ _ r e) in Hstep.
    + intros (Hd & data & Hdata). eexists. split.
      * rewrite step_detected by done. rewrite Hdata. reflexivity.
      * done.
  - split.
    + intros (r' & Hstep & Hr').
      destruct (detector_cases r) as [Hd | [Hu | [e He]]]; [|done|].
      * rewrite step_detected in Hstep by done.
        destruct (dispatch _); [|done]. injection Hstep as <-. done.
      * by rewrite (step_helper_throw _ _ r e) in Hstep.
    + intros Hu. eexists. split; [by apply step_undetected | done].
Qed.

Lemma prompt_executed_routes_witness :
  let generate := Mocks.resolvedOnce Fixtures.mockLlmResponseWithToolCall
                    Fixtures.mockFinalLlmResponse in
  let dispatch := Mocks.resolved Fixtures.mockToolCallResult in
  let r := goto prompt_executed
             (assign_llmResponse Fixtures.mockLlmResponseWithToolCall initial) in
  at_ r = prompt_executed
  ∧ (select transitions r = Ok (Some route_with_tool_calls) ↔ detected r)
  ∧ (select transitions r = Ok (Some route_without_tool_calls) ↔ undetected r)
  ∧ (detected r →
       Loop.step generate dispatch r
       = (data ← dispatch (llmResponse (state r));
          Ok (goto ready (assign_toolCallResult data r))))
  ∧ (undetected r → Loop.step generate dispatch r = Ok (goto end_ r))
  ∧ ((∃ r', Loop.step generate dispatch r = Ok r' ∧ at_ r' = ready)
       ↔ detected r ∧ ∃ data, dispatch (llmResponse (state r)) = Ok data)
  ∧ ((∃ r', Loop.step generate dispatch r = Ok r' ∧ at_ r' = end_)
       ↔ undetected r).
Proof.
  intros generate dispatch r. split; [reflexivity|].
  apply (prompt_executed_routes generate dispatch r). reflexivity.
Defined.

Section RunFacts.

Variable generate : nat → result value.
Variable dispatch : value → result value.

Lemma run_step (fuel : nat) (r r' : Run) :
  Loop.step generate dispatch r = Ok r' →
  Loop.run generate dispatch (S fuel) r = Loop.run generate dispatch fuel r'.
Proof. intros Hstep. simpl. by rewrite Hstep. Qed.

(** Enough fuel: what [n] steps reach at [end_] is what any longer run
    returns. *)
Lemma run_enough (n fuel : nat) (r final : Run) :
  Loop.run generate dispatch n r = Ok final → at_ final = end_ → n ≤ fuel →
  Loop.run generate dispatch fuel r = Ok final.
Proof.
  intros Hrun Hend Hle. replace fuel with (n + (fuel - n)) by lia.
  rewrite run_split, Hrun. simpl. by apply run_end.
Qed.

(** A turn whose response carries no tool call ends the run. *)
Lemma run_final_turn (r : Run) (response : value) :
  at_ r = ready → generate (generateCalls r) = Ok response →
  is_message response = true → tool_parts response = [] →
  Loop.run generate dispatch 2 r
  = Ok (goto end_ (goto prompt_executed (assign_llmResponse response r))).
Proof.
  intros Hat Hgen Hm Hno.
  rewrite (run_step 1 r _ (step_ready generate dispatch r response Hat Hgen)).
  erewrite (run_step 0); [reflexivity|].
  apply step_undetected; [done|].
  apply undetected_message; [done|]. by apply tool_parts_nil.
Qed.

(** A turn whose response carries tool calls dispatches it and returns to
    [ready]. *)
Lemma run_tool_turn (r : Run) (response data : value) :
  at_ r = ready → generate (generateCalls r) = Ok response →
  is_message response = true → tool_parts response ≠ [] →
  dispatch response = Ok data →
  Loop.run generate dispatch 2 r
  = Ok (goto ready (assign_toolCallResult data
         (goto prompt_executed (assign_llmResponse response r)))).
Proof.
  intros Hat Hgen Hm Hsome Hdata.
  rewrite (run_step 1 r _ (step_ready generate dispatch r response Hat Hgen)).
  erewrite (run_step 0); [reflexivity|].
  rewrite step_detected; simpl.
  - by rewrite Hdata.
  - done.
  - apply detected_message; [done|]. simpl.
    destruct (tool_parts response) as [|p l] eqn:Hp; [done|].
    by apply (tool_parts_cons response p l).
Qed.

(** Two turns: tool calls in the first response, none in the second. *)
Lemma run_two_turns (first second data : value) (fuel : nat) :
  generate 0 = Ok first → generate 1 = Ok second →
  is_message first = true → tool_parts first ≠ [] →
  is_message second = true → tool_parts second = [] →
  dispatch first = Ok data →
  4 ≤ fuel →
  Loop.run generate dispatch fuel initial
  = Ok (goto end_ (goto prompt_executed (assign_llmResponse second
         (goto ready (assign_toolCallResult data
           (goto prompt_executed (assign_llmResponse first initial))))))).
Proof.
  intros Hfirst Hsecond Hm1 Hsome Hm2 Hnone Hdata Hfuel.
  pose (r1 := goto prompt_executed (assign_llmResponse first initial)).
  pose (r2 := goto ready (assign_toolCallResult data r1)).
  pose proof (run_tool_turn initial first data
                eq_refl Hfirst Hm1 Hsome Hdata) as Hturn1.
  pose proof (run_final_turn r2 second eq_refl Hsecond Hm2 Hnone) as Hturn2.
  eapply (run_enough 4); [ | | exact Hfuel].
  - rewrite (run_split _ _ 2 2), Hturn1. exact Hturn2.
  - reflexivity.
Qed.

End RunFacts.

(** C5. When the LLM response is a Message none of whose parts is tagged
    [tool-...], the run makes one LLM call and no dispatch call, goes
    [ready], [prompt_executed], [end_], and visits [ready] once. *)
Theorem plain_text_run
    (generate : nat → result value) (dispatch : value → result value)
    (response : value) (fuel : nat) :
  generate 0 = Ok response →
  is_message response = true →
  tool_parts response = [] →
  2 ≤ fuel →
  ∃ final,
    Loop.run generate dispatch fuel initial = Ok final
    ∧ at_ final = end_
    ∧ places final = [ready; prompt_executed; end_]
    ∧ generateCalls final = 1
    ∧ dispatchCalls final = []
    ∧ length (filter (λ p, p = ready) (places final)) = 1.
Proof.
  intros Hgen Hm Hno Hfuel. eexists. split.
  - eapply run_enough; [by apply run_final_turn | reflexivity | exact Hfuel].
  - by split_and!.
Qed.

Lemma plain_text_run_witness :
  let generate := Mocks.resolved Fixtures.mockLlmResponseNoToolCall in
  let dispatch := Mocks.resolved VUndefined in
  generate 0 = Ok Fixtures.mockLlmResponseNoToolCall
  ∧ is_message Fixtures.mockLlmResponseNoToolCall = true
  ∧ tool_parts Fixtures.mockLlmResponseNoToolCall = []
  ∧ 2 ≤ 5
  ∧ ∃ final,
      Loop.run generate dispatch 5 initial = Ok final
      ∧ at_ final = end_
      ∧ places final = [ready; prompt_executed; end_]
      ∧ generateCalls final = 1
      ∧ dispatchCalls final = []
      ∧ length (filter (λ p, p = ready) (places final)) = 1.
Proof.
  intros generate dispatch.
  split; [reflexivity|]. split; [reflexivity|]. split; [reflexivity|].
  split; [lia|].
  apply (plain_text_run generate dispatch Fixtures.mockLlmResponseNoToolCall 5);
    [reflexivity | reflexivity | reflexivity | lia].
Defined.

(** C4. When the first LLM response is a Message with exactly one tool-call
    part and the second is a Message with none, the run makes two LLM calls
    and exactly one dispatch call, on the first response, and goes [ready],
    [prompt_executed], [ready], [prompt_executed], [end_]. *)
Theorem one_tool_call_run
    (generate : nat → result value) (dispatch : value → result value)
    (first second data : value) (fuel : nat) :
  generate 0 = Ok first →
  generate 1 = Ok second →
  is_message first = true →
  length (tool_parts first) = 1 →
  is_message second = true →
  tool_parts second = [] →
  dispatch first = Ok data →
  4 ≤ fuel →
  ∃ final,
    Loop.run generate dispatch fuel initial = Ok final
    ∧ at_ final = end_
    ∧ places final = [ready; prompt_executed; ready; prompt_executed; end_]
    ∧ generateCalls final = 2
    ∧ dispatchCalls final = [first]
    ∧ llmResponse (state final) = second
    ∧ toolCallResult (state final) = data.
Proof.
  intros Hfirst Hsecond Hm1 Hone Hm2 Hnone Hdata Hfuel.
  assert (tool_parts first ≠ []) as Hsome
    by (intros Hnil; by rewrite Hnil in Hone).
  eexists. split.
  - by apply (run_two_turns generate dispatch first second data fuel).
  - by split_and!.
Qed.

Lemma one_tool_call_run_witness :
  let first := Fixtures.mockLlmResponseWithToolCall in
  let second := Fixtures.mockFinalLlmResponse in
  let generate := Mocks.resolvedOnce first second in
  let dispatch := Mocks.resolved Fixtures.mockToolCallResult in
  generate 0 = Ok first
  ∧ generate 1 = Ok second
  ∧ is_message first = true
  ∧ length (tool_parts first) = 1
  ∧ is_message second = true
  ∧ tool_parts second = []
  ∧ dispatch first = Ok Fixtures.mockToolCallResult
  ∧ 4 ≤ 4
  ∧ ∃ final,
      Loop.run generate dispatch 4 initial = Ok final
      ∧ at_ final = end_
      ∧ places final = [ready; prompt_executed; ready; prompt_executed; end_]
      ∧ generateCalls final = 2
      ∧ dispatchCalls final = [first]
      ∧ llmResponse (state final) = second
      ∧ toolCallResult (state final) = Fixtures.mockToolCallResult.
Proof.
  intros first second generate dispatch.
  do 7 (split; [reflexivity|]). split; [lia|].
  apply (one_tool_call_run generate dispatch first second
           Fixtures.mockToolCallResult 4);
    [reflexivity | reflexivity | reflexivity | reflexivity
    | reflexivity | reflexivity | reflexivity | lia].
Defined.

(** C9. The controller has no iteration bound: whenever dispatch succeeds
    on some Message that carries a tool-call part, there is an infinite
    sequence of LLM responses, each a Message with a part tagged
    [tool-...], under which no amount of fuel brings the run to [end_]:
    every prefix of the run is defined and stands at another place. *)
Theorem loop_never_ends
    (dispatch : value → result value) (message data : value) :
  is_message message = true →
  tool_parts message ≠ [] →
  dispatch message = Ok data →
  ∃ generate : nat → result value,
    (∀ n, ∃ m, generate n = Ok m ∧ is_message m = true ∧ has_tool_part m)
    ∧ ∀ fuel, ∃ r,
        Loop.run generate dispatch fuel initial = Ok r ∧ at_ r ≠ end_.
Proof.
  intros Hm Hsome Hdata.
  assert (has_tool_part message) as Hpart.
  { destruct (tool_parts message) as [|p l] eqn:Hp; [done|].
    by apply (tool_parts_cons message p l). }
  exists (λ _, Ok message). split.
  - intros n. by exists message.
  - intros fuel.
    destruct (run_looping (λ _, Ok message) dispatch) with (fuel := fuel) (r := initial)
      as (r & Hrun & Hloop).
    + intros n. exists message, data. split; [done|]. split; [|done].
      destruct (isToolCall_message_bool message Hm) as (b & Hb & Hiff).
      exists (VBool b). split; [done|]. by apply Hiff.
    + by left.
    + exists r. split; [done|]. by eapply looping_not_end.
Qed.

Lemma loop_never_ends_witness :
  let dispatch := Mocks.resolved Fixtures.mockToolCallResult in
  let message := Fixtures.mockLlmResponseWithToolCall in
  is_message message = true
  ∧ tool_parts message ≠ []
  ∧ dispatch message = Ok Fixtures.mockToolCallResult
  ∧ ∃ generate : nat → result value,
      (∀ n, ∃ m, generate n = Ok m ∧ is_message m = true ∧ has_tool_part m)
      ∧ ∀ fuel, ∃ r,
          Loop.run generate dispatch fuel initial = Ok r ∧ at_ r ≠ end_.
Proof.
  intros dispatch message.
  split; [reflexivity|]. split; [discriminate|]. split; [reflexivity|].
  apply (loop_never_ends dispatch message Fixtures.mockToolCallResult);
    [reflexivity | discriminate | reflexivity].
Defined.

(** ** The dispatcher on the tool-call parts *)

Section DispatchFacts.

Variable registry : gmap string Tool.

Lemma mapM_Ok {A B : Type} (f : A → result B) (l : list A) (k : list B) :
  mapM f l = Ok k → Forall2 (λ x y, f x = Ok y) l k.
Proof.
  revert k. induction l as [|x l IH]; intros k; simpl.
  - intros [= <-]. constructor.
  - destruct (f x) as [y|e] eqn:Hx; simpl; [|done].
    destruct (mapM f l) as [k'|e]; simpl; [|done].
    intros [= <-]. constructor; [done | by apply IH].
Qed.

(** What a part looks like once executed: resolved by name, validated,
    run, and returned with its id and tag, the state [output-available]
    and the output of the tool. *)
Lemma executePart_Ok (part out : value) :
  Dispatch.executePart registry part = Ok out →
  ∃ name tool r,
    Dispatch.tool_name part = Some name
    ∧ registry !! name = Some tool
    ∧ arguments tool (Dispatch.field "input" part) = true
    ∧ execute tool (Dispatch.field "input" part) = Ok r
    ∧ Dispatch.field "output" out = Dispatch.output_of r
    ∧ Dispatch.field "state" out = VStr "output-available"
    ∧ Dispatch.field "toolCallId" out = Dispatch.field "toolCallId" part
    ∧ part_type out = part_type part.
Proof.
  unfold Dispatch.executePart.
  destruct part as [| | | | | |fields]; try by destruct (Dispatch.tool_name _).
  destruct (Dispatch.tool_name (VObj fields)) as [name|] eqn:Hname; [|done].
  destruct (registry !! name) as [tool|] eqn:Htool; [|done].
  destruct (arguments tool _) eqn:Hargs; [|done].
  destruct (execute tool _) as [r|e] eqn:Hr; simpl; [|done].
  intros [= <-]. exists name, tool, r. split_and!; try done.
  - unfold Dispatch.field. by rewrite lookup_insert_ne, lookup_insert_eq.
  - unfold Dispatch.field. by rewrite lookup_insert_eq.
  - unfold Dispatch.field. by rewrite !lookup_insert_ne.
  - unfold part_type. by rewrite !lookup_insert_ne.
Qed.

(** One result message, one output per tool-call part, in order. *)
Lemma dispatch_Ok (message data : value) :
  Dispatch.dispatch registry message = Ok data →
  ∃ outputs,
    data = VObj {[ "parts" := VArr outputs ]}
    ∧ Forall2 (λ part out, Dispatch.executePart registry part = Ok out)
        (tool_parts message) outputs.
Proof.
  unfold Dispatch.dispatch.
  destruct (mapM _ (tool_parts message)) as [outputs|e] eqn:Hmap; simpl; [|done].
  intros [= <-]. exists outputs. split; [done | by apply mapM_Ok].
Qed.

End DispatchFacts.

(** C6. When one LLM response carries two tool-call parts and the next one
    none, the run makes exactly one dispatch call, on that whole response;
    the dispatch yields one result message whose parts are the two executed
    parts, in the order of the inputs and each with the [toolCallId] of its
    input, in state [output-available]; then the loop makes its second and
    last LLM call and ends. *)
Theorem two_tool_calls_run
    (registry : gmap string Tool) (generate : nat → result value)
    (first second p1 p2 data : value) (fuel : nat) :
  generate 0 = Ok first →
  generate 1 = Ok second →
  is_message first = true →
  tool_parts first = [p1; p2] →
  is_message second = true →
  tool_parts second = [] →
  Dispatch.dispatch registry first = Ok data →
  4 ≤ fuel →
  ∃ final o1 o2,
    Loop.run generate (Dispatch.dispatch registry) fuel initial = Ok final
    ∧ at_ final = end_
    ∧ places final = [ready; prompt_executed; ready; prompt_executed; end_]
    ∧ generateCalls final = 2
    ∧ dispatchCalls final = [first]
    ∧ toolCallResult (state final) = data
    ∧ data = VObj {[ "parts" := VArr [o1; o2] ]}
    ∧ Dispatch.executePart registry p1 = Ok o1
    ∧ Dispatch.executePart registry p2 = Ok o2
    ∧ Dispatch.field "toolCallId" o1 = Dispatch.field "toolCallId" p1
    ∧ Dispatch.field "toolCallId" o2 = Dispatch.field "toolCallId" p2
    ∧ Dispatch.field "state" o1 = VStr "output-available"
    ∧ Dispatch.field "state" o2 = VStr "output-available".
Proof.
  intros Hfirst Hsecond Hm1 Htwo Hm2 Hnone Hdata Hfuel.
  destruct (dispatch_Ok registry first data Hdata) as (outputs & Hshape & Hall).
  rewrite Htwo in Hall.
  apply Forall2_cons_inv_l in Hall as (o1 & rest & Ho1 & Hall & ->).
  apply Forall2_cons_inv_l in Hall as (o2 & rest' & Ho2 & Hall & ->).
  apply Forall2_nil_inv_l in Hall as ->.
  destruct (executePart_Ok registry p1 o1 Ho1)
    as (? & ? & ? & _ & _ & _ & _ & _ & Hstate1 & Hid1 & _).
  destruct (executePart_Ok registry p2 o2 Ho2)
    as (? & ? & ? & _ & _ & _ & _ & _ & Hstate2 & Hid2 & _).
  exists (goto end_ (goto prompt_executed (assign_llmResponse second
           (goto ready (assign_toolCallResult data
             (goto prompt_executed (assign_llmResponse first initial))))))),
    o1, o2.
  split.
  - apply run_two_turns; try done. by rewrite Htwo.
  - by split_and!.
Qed.

Lemma two_tool_calls_run_witness :
  let first := Fixtures.mockLlmResponseWithMultipleToolCalls in
  let second := Fixtures.mockFinalResponse in
  let generate := Mocks.resolvedOnce first second in
  let p1 := Fixtures.toolCallPart "tool_call_1" Fixtures.berlin in
  let p2 := Fixtures.toolCallPart "tool_call_2" Fixtures.munich in
  let sunny := "Mostly sunny, 14C, rain in the afternoon." in
  let data := VObj {[ "parts" := VArr [
                Fixtures.toolResultPart "tool_call_1" Fixtures.berlin sunny;
                Fixtures.toolResultPart "tool_call_2" Fixtures.munich sunny ] ]} in
  generate 0 = Ok first
  ∧ generate 1 = Ok second
  ∧ is_message first = true
  ∧ tool_parts first = [p1; p2]
  ∧ is_message second = true
  ∧ tool_parts second = []
  ∧ Dispatch.dispatch Dispatch.tools first = Ok data
  ∧ 4 ≤ 6
  ∧ ∃ final o1 o2,
      Loop.run generate (Dispatch.dispatch Dispatch.tools) 6 initial = Ok final
      ∧ at_ final = end_
      ∧ places final = [ready; prompt_executed; ready; prompt_executed; end_]
      ∧ generateCalls final = 2
      ∧ dispatchCalls final = [first]
      ∧ toolCallResult (state final) = data
      ∧ data = VObj {[ "parts" := VArr [o1; o2] ]}
      ∧ Dispatch.executePart Dispatch.tools p1 = Ok o1
      ∧ Dispatch.executePart Dispatch.tools p2 = Ok o2
      ∧ Dispatch.field "toolCallId" o1 = Dispatch.field "toolCallId" p1
      ∧ Dispatch.field "toolCallId" o2 = Dispatch.field "toolCallId" p2
      ∧ Dispatch.field "state" o1 = VStr "output-available"
      ∧ Dispatch.field "state" o2 = VStr "output-available".
Proof.
  intros first second generate p1 p2 sunny data.
  do 7 (split; [vm_compute; reflexivity|]). split; [lia|].
  apply (two_tool_calls_run Dispatch.tools generate first second p1 p2 data 6);
    [vm_compute; reflexivity | vm_compute; reflexivity | vm_compute; reflexivity
    | vm_compute; reflexivity | vm_compute; reflexivity | vm_compute; reflexivity
    | vm_compute; reflexivity | lia].
Defined.

(** * Further properties *)

(** ** The detector on arbitrary data *)

Section DetectorScan.

Lemma is_tool_part_is_part (p : value) : is_tool_part p = true → is_part p = true.
Proof. unfold is_tool_part, is_part. by destruct (part_type p). Qed.

(** Off the Parts the callback throws: [part.type] is not a string. *)
Lemma isToolPart_not_part (p : value) :
  is_part p = false → isToolPart p = Throw TypeError.
Proof.
  unfold is_part, isToolPart, part_type.
  destruct p as [| | | | | |fields]; try done.
  simpl. destruct (fields !! "type") as [[]|]; simpl; done.
Qed.

Lemma isToolPart_plain (p : value) :
  is_plain_part p = true → isToolPart p = Ok (VBool false).
Proof.
  unfold is_plain_part. intros [Hp Ht%negb_true_iff]%andb_prop.
  by rewrite isToolPart_part, Ht.
Qed.

Lemma some_skip_plain (ps rest : list value) :
  Forall (λ q, is_plain_part q = true) ps →
  some isToolPart (ps ++ rest) = some isToolPart rest.
Proof.
  induction 1 as [|q ps Hq _ IH]; simpl; [done|].
  by rewrite (isToolPart_plain q Hq).
Qed.

(** The walk is decided by the first element that is not a plain Part. *)
Lemma some_isToolPart_cases (ps : list value) :
  (some isToolPart ps = Ok (VBool false)
   ∧ Forall (λ q, is_plain_part q = true) ps)
  ∨ (∃ ps1 p ps2, ps = ps1 ++ p :: ps2
       ∧ Forall (λ q, is_plain_part q = true) ps1
       ∧ ((is_tool_part p = true ∧ some isToolPart ps = Ok (VBool true))
          ∨ (is_part p = false ∧ some isToolPart ps = Throw TypeError))).
Proof.
  induction ps as [|q ps IH].
  - left. by split.
  - destruct (is_part q) eqn:Hq.
    + destruct (is_tool_part q) eqn:Ht.
      * right. exists [], q, ps. split_and!; [done | constructor |].
        left. split; [done|]. simpl. by rewrite isToolPart_part, Ht.
      * assert (is_plain_part q = true) as Hplain
          by (unfold is_plain_part; by rewrite Hq, Ht).
        destruct IH as [[Hf Hall] | (ps1 & p & ps2 & -> & Hall & Hp)].
        -- left. split; [|by constructor].
           simpl. by rewrite (isToolPart_plain q Hplain).
        -- right. exists (q :: ps1), p, ps2. split_and!; [done | by constructor |].
           simpl. rewrite (isToolPart_plain q Hplain). simpl.
           destruct Hp as [[? ?] | [? ?]]; [by left | by right].
    + right. exists [], q, ps. split_and!; [done | constructor |].
      right. split; [done|]. simpl. by rewrite isToolPart_not_part.
Qed.

Lemma get_not_nullish (m : value) (k : string) :
  nullish m = false → ∃ v, get m k = Ok v.
Proof. destruct m; simpl; try done; eauto. Qed.

Lemma get_Ok_not_nullish (m v : value) (k : string) :
  get m k = Ok v → nullish m = false.
Proof. by destruct m. Qed.

(** A non-nullish message whose [parts] is an array: the detector is the
    walk over that array. *)
Lemma isToolCall_array (m : value) (ps : list value) :
  get m "parts" = Ok (VArr ps) → isToolCall m = some isToolPart ps.
Proof.
  intros Hget. unfold isToolCall.
  by rewrite (get_Ok_not_nullish m _ _ Hget), Hget.
Qed.

(** A non-nullish message whose [parts] is anything but an array. *)
Lemma isToolCall_not_array (m : value) :
  nullish m = false → (∀ ps, get m "parts" ≠ Ok (VArr ps)) →
  isToolCall m = Throw TypeError.
Proof.
  intros Hm Hno. unfold isToolCall. rewrite Hm.
  destruct (get_not_nullish m "parts" Hm) as [v Hv]. rewrite Hv. simpl.
  destruct v; try done. by destruct (Hno items).
Qed.

(** What the detector does, by the shape of its argument. *)
Lemma isToolCall_cases (m : value) :
  (nullish m = true ∧ isToolCall m = Ok VUndefined)
  ∨ (nullish m = false ∧ (∀ ps, get m "parts" ≠ Ok (VArr ps))
     ∧ isToolCall m = Throw TypeError)
  ∨ (∃ ps, get m "parts" = Ok (VArr ps)
       ∧ isToolCall m = some isToolPart ps).
Proof.
  destruct (nullish m) eqn:Hm.
  - left. split; [done|]. unfold isToolCall. by rewrite Hm.
  - destruct (get_not_nullish m "parts" Hm) as [v Hv].
    destruct v as [| | | | |ps|];
      try (right; left; split; [done|]; split;
           [by intros ps; rewrite Hv | apply isToolCall_not_array; [done|];
            by intros ps; rewrite Hv]).
    right. right. exists ps. split; [done | by apply isToolCall_array].
Qed.

End DetectorScan.

(** X1. The detector returns [undefined] exactly on [undefined] and [null];
    whatever else it returns is [true] or [false]. *)
Theorem isToolCall_result_range (m : value) :
  (isToolCall m = Ok VUndefined ↔ nullish m = true)
  ∧ (∀ v, isToolCall m = Ok v → v = VUndefined ∨ v = VBool true ∨ v = VBool false).
Proof.
  destruct (isToolCall_cases m) as [[Hm Hr] | [(Hm & _ & Hr) | (ps & Hget & Hr)]].
  - split; [by rewrite Hr|]. rewrite Hr. intros v [= <-]. by left.
  - rewrite Hr. split; [split; [done | congruence] | done].
  - pose proof (get_Ok_not_nullish m _ _ Hget) as Hm. rewrite Hr.
    destruct (some_isToolPart_cases ps)
      as [[-> _] | (ps1 & p & ps2 & _ & _ & [[_ ->] | [_ ->]])].
    + split; [split; [done | congruence] | intros v [= <-]; auto].
    + split; [split; [done | congruence] | intros v [= <-]; auto].
    + split; [split; [done | congruence] | done].
Qed.

(** X2. The detector returns [true] exactly when [parts] is an array in
    which some element is tagged [tool-...] and every element before it is
    a well-formed Part with another tag; what follows that element is not
    looked at, well-formed or not. *)
Theorem isToolCall_true_iff (m : value) :
  isToolCall m = Ok (VBool true)
  ↔ ∃ ps1 p ps2,
      get m "parts" = Ok (VArr (ps1 ++ p :: ps2))
      ∧ Forall (λ q, is_plain_part q = true) ps1
      ∧ is_tool_part p = true.
Proof.
  split.
  - intros Hr.
    destruct (isToolCall_cases m) as [[_ Hu] | [(_ & _ & Ht) | (ps & Hget & Hs)]];
      [congruence | congruence |].
    rewrite Hs in Hr.
    destruct (some_isToolPart_cases ps)
      as [[Hf _] | (ps1 & p & ps2 & -> & Hall & [[Hp _] | [_ Ht]])];
      [congruence | | congruence].
    by exists ps1, p, ps2.
  - intros (ps1 & p & ps2 & Hget & Hall & Hp).
    rewrite (isToolCall_array m _ Hget), some_skip_plain by done. simpl.
    by rewrite (isToolPart_part p (is_tool_part_is_part p Hp)), Hp.
Qed.

(** X3. The detector returns [false] exactly when [parts] is an array all
    of whose elements are well-formed Parts with tags other than
    [tool-...]. *)
Theorem isToolCall_false_iff (m : value) :
  isToolCall m = Ok (VBool false)
  ↔ ∃ ps, get m "parts" = Ok (VArr ps) ∧ Forall (λ q, is_plain_part q = true) ps.
Proof.
  split.
  - intros Hr.
    destruct (isToolCall_cases m) as [[_ Hu] | [(_ & _ & Ht) | (ps & Hget & Hs)]];
      [congruence | congruence |].
    rewrite Hs in Hr.
    destruct (some_isToolPart_cases ps)
      as [[_ Hall] | (ps1 & p & ps2 & -> & _ & [[_ Ht] | [_ Ht]])];
      [| congruence | congruence].
    by exists ps.
  - intros (ps & Hget & Hall).
    rewrite (isToolCall_array m _ Hget).
    rewrite <- (app_nil_r ps). by rewrite some_skip_plain.
Qed.

(** X4. The detector throws exactly on a message that is neither
    [undefined] nor [null] and whose [parts] is not an array, or is an array
    that reaches an element without a [type] string before any element
    tagged [tool-...]; what it throws is a [TypeError]. *)
Theorem isToolCall_throws_iff (m : value) (e : exn) :
  isToolCall m = Throw e
  ↔ e = TypeError
    ∧ nullish m = false
    ∧ ∀ ps, get m "parts" = Ok (VArr ps) →
        ∃ ps1 p ps2,
          ps = ps1 ++ p :: ps2
          ∧ Forall (λ q, is_plain_part q = true) ps1
          ∧ is_part p = false.
Proof.
  split.
  - intros Hr.
    destruct (isToolCall_cases m) as [[_ Hu] | [(Hm & Hno & Ht) | (ps & Hget & Hs)]];
      [congruence | |].
    + split; [congruence|]. split; [done|]. intros ps Hps. by destruct (Hno ps).
    + rewrite Hs in Hr.
      destruct (some_isToolPart_cases ps)
        as [[Hf _] | (ps1 & p & ps2 & -> & Hall & [[_ Ht] | [Hp Ht]])];
        [congruence | congruence |].
      split; [congruence|]. split; [by eapply get_Ok_not_nullish|].
      intros ps Hps. rewrite Hget in Hps. injection Hps as <-.
      by exists ps1, p, ps2.
  - intros (-> & Hm & Hsplit).
    destruct (get_not_nullish m "parts" Hm) as [v Hv].
    destruct v as [| | | | |ps|];
      try (apply isToolCall_not_array; [done|]; by intros ps; rewrite Hv).
    destruct (Hsplit ps Hv) as (ps1 & p & ps2 & -> & Hall & Hp).
    rewrite (isToolCall_array m _ Hv), some_skip_plain by done. simpl.
    by rewrite isToolPart_not_part.
Qed.

Lemma some_ext (cb cb' : value → result value) (ps qs : list value) :
  Forall2 (λ p q, cb p = cb' q) ps qs → some cb ps = some cb' qs.
Proof.
  induction 1 as [|p q ps qs Hpq _ IH]; simpl; [done|]. by rewrite Hpq, IH.
Qed.

Lemma some_app (cb : value → result value) (ps qs : list value) :
  some cb (ps ++ qs)
  = match some cb ps with
    | Ok v => if ToBoolean v then Ok (VBool true) else some cb qs
    | Throw e => Throw e
    end.
Proof.
  induction ps as [|p ps IH]; simpl; [done|].
  destruct (cb p) as [v|e]; simpl; [|done].
  by destruct (ToBoolean v).
Qed.

(** X5. The detector reads nothing but the [type] of the elements of
    [parts]: two messages whose parts read the same [type], position by
    position, get the same answer or the same exception, whatever their
    roles, ids, inputs, states and outputs. *)
Theorem isToolCall_reads_types_only (m m' : value) (ps qs : list value) :
  get m "parts" = Ok (VArr ps) →
  get m' "parts" = Ok (VArr qs) →
  Forall2 (λ p q, get p "type" = get q "type") ps qs →
  isToolCall m = isToolCall m'.
Proof.
  intros Hm Hm' Htypes.
  rewrite (isToolCall_array m ps Hm), (isToolCall_array m' qs Hm').
  apply some_ext. eapply Forall2_impl; [exact Htypes|].
  intros p q Hpq. unfold isToolPart. by rewrite Hpq.
Qed.

Lemma isToolCall_reads_types_only_witness :
  let m := Fixtures.mockLlmResponseWithToolCall in
  let m' := Fixtures.mockToolCallResult in
  let p := Fixtures.toolCallPart "tool_call_1" Fixtures.berlin in
  let q := Fixtures.toolResultPart "tool_call_1" Fixtures.berlin
             "Weather in Berlin: 15°C, partly cloudy" in
  get m "parts" = Ok (VArr [p])
  ∧ get m' "parts" = Ok (VArr [q])
  ∧ Forall2 (λ p q, get p "type" = get q "type") [p] [q]
  ∧ isToolCall m = isToolCall m'.
Proof.
  intros m m' p q.
  assert (Forall2 (λ p q, get p "type" = get q "type") [p] [q]) as Htypes
    by (constructor; [reflexivity | constructor]).
  split; [reflexivity|]. split; [reflexivity|]. split; [exact Htypes|].
  apply (isToolCall_reads_types_only m m' [p] [q]);
    [reflexivity | reflexivity | exact Htypes].
Defined.

(** X6. Over a concatenation of parts the detector composes left to right:
    a truthy answer or an exception on the front part of the array is the
    outcome for the whole, and after a falsy answer on the front the
    outcome is that of the rest. *)
Theorem isToolCall_parts_append (m1 m2 m : value) (ps qs : list value) :
  get m1 "parts" = Ok (VArr ps) →
  get m2 "parts" = Ok (VArr qs) →
  get m "parts" = Ok (VArr (ps ++ qs)) →
  isToolCall m
  = match isToolCall m1 with
    | Ok v => if ToBoolean v then Ok (VBool true) else isToolCall m2
    | Throw e => Throw e
    end.
Proof.
  intros H1 H2 H.
  rewrite (isToolCall_array m _ H), (isToolCall_array m1 _ H1),
    (isToolCall_array m2 _ H2).
  apply some_app.
Qed.

Lemma isToolCall_parts_append_witness :
  let text := Fixtures.textPart "Hello" in
  let call := Fixtures.toolCallPart "tool_call_1" Fixtures.berlin in
  let m1 := Fixtures.assistant [text] in
  let m2 := Fixtures.assistant [call; VNull] in
  let m := Fixtures.assistant [text; call; VNull] in
  get m1 "parts" = Ok (VArr [text])
  ∧ get m2 "parts" = Ok (VArr [call; VNull])
  ∧ get m "parts" = Ok (VArr ([text] ++ [call; VNull]))
  ∧ isToolCall m
    = match isToolCall m1 with
      | Ok v => if ToBoolean v then Ok (VBool true) else isToolCall m2
      | Throw e => Throw e
      end.
Proof.
  intros text call m1 m2 m.
  split; [reflexivity|]. split; [reflexivity|]. split; [reflexivity|].
  apply (isToolCall_parts_append m1 m2 m [text] [call; VNull]); reflexivity.
Defined.

(** ** Runs of any length *)

Section RunInvariant.

Variable generate : nat → result value.
Variable dispatch : value → result value.

Abbreviation step := (Loop.step generate dispatch).
Abbreviation run := (Loop.run generate dispatch).

Lemma rounds_S (k : nat) : rounds (S k) = rounds k ++ [ready; prompt_executed].
Proof.
  unfold rounds. by rewrite replicate_S_end, concat_app.
Qed.

Lemma step_at_ready (r : Run) :
  at_ r = ready →
  step r = (data ← generate (generateCalls r);
            Ok (goto prompt_executed (assign_llmResponse data r))).
Proof.
  intros Hat. destruct (generate (generateCalls r)) as [data|e] eqn:Hgen.
  - by apply step_ready.
  - by apply step_ready_throw.
Qed.

Lemma invariant_initial : run_invariant generate initial.
Proof. split; [by intros i m Hi | by split]. Qed.

Lemma invariant_step (r r' : Run) :
  run_invariant generate r → step r = Ok r' → run_invariant generate r'.
Proof.
  intros [Hlog Hat] Hstep. destruct (at_ r) eqn:Hplace.
  - (* ready *)
    destruct Hat as [Hcalls Hpath].
    rewrite step_at_ready in Hstep by done.
    destruct (generate (generateCalls r)) as [data|] eqn:Hgen; [|done].
    injection Hstep as <-. split; [exact Hlog|]. simpl.
    split_and!; [by rewrite Hcalls | | by rewrite <- Hcalls].
    by rewrite Hpath, rounds_S, <- app_assoc.
  - (* prompt_executed *)
    destruct Hat as (Hcalls & Hpath & Hresp).
    destruct (detector_cases r) as [Hd | [Hu | [e He]]].
    + rewrite step_detected in Hstep by done.
      destruct (dispatch _) as [data|]; [|done]. injection Hstep as <-.
      split; simpl.
      * intros i m Hi. apply lookup_app_Some in Hi as [Hi | [Hge Hi]].
        -- by apply Hlog.
        -- apply list_lookup_singleton_Some in Hi as [Hi <-].
           replace i with (length (dispatchCalls r)) by lia. by split.
      * rewrite length_app. simpl. split; [lia|].
        rewrite Hpath. by replace (length (dispatchCalls r) + 1) with
          (S (length (dispatchCalls r))) by lia.
    + rewrite step_undetected in Hstep by done. injection Hstep as <-.
      split; [exact Hlog|]. simpl. split_and!; try done. by rewrite Hpath.
    + by rewrite (step_helper_throw _ _ r e) in Hstep.
  - (* end_ *)
    rewrite step_end in Hstep by done. injection Hstep as <-.
    split; [exact Hlog|]. by rewrite Hplace.
Qed.

Lemma invariant_run (fuel : nat) (r r' : Run) :
  run_invariant generate r → run fuel r = Ok r' → run_invariant generate r'.
Proof.
  revert r. induction fuel as [|fuel IH]; intros r Hr; simpl.
  - by intros [= <-].
  - destruct (step r) as [r1|e] eqn:Hstep; simpl; [|done].
    apply IH. by eapply invariant_step.
Qed.

(** One turn on a response with a truthy helper, one on a falsy one. *)
Lemma run_turn_truthy (r : Run) (m data : value) :
  at_ r = ready → generate (generateCalls r) = Ok m →
  truthy_on m → dispatch m = Ok data →
  run 2 r = Ok (goto ready (assign_toolCallResult data
                 (goto prompt_executed (assign_llmResponse m r)))).
Proof.
  intros Hat Hgen Hm Hdata.
  rewrite (run_step generate dispatch 1 r _ (step_ready generate dispatch r m Hat Hgen)).
  erewrite (run_step generate dispatch 0); [reflexivity|].
  rewrite step_detected; [simpl; by rewrite Hdata | done | done].
Qed.

Lemma run_turn_falsy (r : Run) (m : value) :
  at_ r = ready → generate (generateCalls r) = Ok m → falsy_on m →
  run 2 r = Ok (goto end_ (goto prompt_executed (assign_llmResponse m r))).
Proof.
  intros Hat Hgen Hm.
  rewrite (run_step generate dispatch 1 r _ (step_ready generate dispatch r m Hat Hgen)).
  erewrite (run_step generate dispatch 0); [reflexivity|].
  by apply step_undetected.
Qed.

(** [k] tool rounds and a final turn, from any state at [ready]. *)
Lemma run_rounds (k : nat) (last : value) :
  falsy_on last →
  ∀ r, at_ r = ready →
    (∀ i, i < k → ∃ m data,
       generate (generateCalls r + i) = Ok m ∧ truthy_on m ∧ dispatch m = Ok data) →
    generate (generateCalls r + k) = Ok last →
    ∃ final,
      run (2 * k + 2) r = Ok final
      ∧ at_ final = end_
      ∧ generateCalls final = S (generateCalls r + k)
      ∧ length (dispatchCalls final) = length (dispatchCalls r) + k
      ∧ llmResponse (state final) = last.
Proof.
  intros Hlast. induction k as [|k IH]; intros r Hat Htools Hfinal.
  - rewrite Nat.add_0_r in Hfinal. eexists. split.
    + by apply run_turn_falsy.
    + simpl. split_and!; [done | lia | lia | done].
  - destruct (Htools 0) as (m & data & Hm & Htruthy & Hdata); [lia|].
    rewrite Nat.add_0_r in Hm.
    pose (r2 := goto ready (assign_toolCallResult data
                  (goto prompt_executed (assign_llmResponse m r)))).
    destruct (IH r2) as (final & Hrun & Hend & Hcalls & Hlen & Hresp).
    + done.
    + intros i Hi. destruct (Htools (S i)) as (m' & d' & Hm' & ?); [lia|].
      exists m', d'. simpl. by replace (S (generateCalls r + i))
        with (generateCalls r + S i) by lia.
    + simpl. by replace (S (generateCalls r + k))
        with (generateCalls r + S k) by lia.
    + exists final. split.
      * replace (2 * S k + 2) with (2 + (2 * k + 2)) by lia.
        rewrite run_split, (run_turn_truthy r m data) by done. exact Hrun.
      * simpl in Hcalls, Hlen. rewrite length_app in Hlen. simpl in Hlen.
        split_and!; [done | lia | lia | done].
Qed.

End RunInvariant.

(** X7. A run that has reached [end_] has made one LLM call more than
    dispatch calls, and with [k] dispatch calls its path is [k + 1] rounds
    of [ready], [prompt_executed], then [end_]. *)
Theorem finished_run_accounting
    (generate : nat → result value) (dispatch : value → result value)
    (fuel : nat) (final : Run) :
  Loop.run generate dispatch fuel initial = Ok final →
  at_ final = end_ →
  generateCalls final = S (length (dispatchCalls final))
  ∧ places final = rounds (S (length (dispatchCalls final))) ++ [end_].
Proof.
  intros Hrun Hend.
  destruct (invariant_run generate dispatch fuel initial final
              (invariant_initial generate) Hrun) as [_ Hat].
  rewrite Hend in Hat. by destruct Hat as (? & ? & _).
Qed.

Lemma finished_run_accounting_witness :
  let first := Fixtures.mockLlmResponseWithToolCall in
  let second := Fixtures.mockFinalLlmResponse in
  let generate := Mocks.resolvedOnce first second in
  let dispatch := Mocks.resolved Fixtures.mockToolCallResult in
  let final := testRun first second Fixtures.mockToolCallResult in
  Loop.run generate dispatch 4 initial = Ok final
  ∧ at_ final = end_
  ∧ generateCalls final = S (length (dispatchCalls final))
  ∧ places final = rounds (S (length (dispatchCalls final))) ++ [end_].
Proof.
  intros first second generate dispatch final.
  split; [reflexivity|]. split; [reflexivity|].
  apply (finished_run_accounting generate dispatch 4 final); reflexivity.
Defined.

(** X8. Whatever a run has handed to the dispatcher, in order, are the LLM
    responses from the first one on, none skipped, and the helper was
    truthy on each: a response is never dispatched without a tool call, and
    the LLM is never asked again before the previous tool calls are
    dispatched. *)
Theorem dispatch_log_follows_responses
    (generate : nat → result value) (dispatch : value → result value)
    (fuel : nat) (r : Run) :
  Loop.run generate dispatch fuel initial = Ok r →
  (∀ i m, dispatchCalls r !! i = Some m → generate i = Ok m ∧ truthy_on m)
  ∧ length (dispatchCalls r) ≤ generateCalls r ≤ S (length (dispatchCalls r)).
Proof.
  intros Hrun.
  destruct (invariant_run generate dispatch fuel initial r
              (invariant_initial generate) Hrun) as [Hlog Hat].
  split; [exact Hlog|].
  destruct (at_ r); [destruct Hat as [-> _] | destruct Hat as (-> & _)
                    | destruct Hat as (-> & _)]; lia.
Qed.

Lemma dispatch_log_follows_responses_witness :
  let first := Fixtures.mockLlmResponseWithToolCall in
  let second := Fixtures.mockFinalLlmResponse in
  let generate := Mocks.resolvedOnce first second in
  let dispatch := Mocks.resolved Fixtures.mockToolCallResult in
  let r := testRun first second Fixtures.mockToolCallResult in
  Loop.run generate dispatch 4 initial = Ok r
  ∧ (∀ i m, dispatchCalls r !! i = Some m → generate i = Ok m ∧ truthy_on m)
  ∧ length (dispatchCalls r) ≤ generateCalls r ≤ S (length (dispatchCalls r)).
Proof.
  intros first second generate dispatch r.
  split; [reflexivity|].
  apply (dispatch_log_follows_responses generate dispatch 4 r). reflexivity.
Defined.

(** X9. When a run has reached [end_], the answer it holds is the LLM
    response that followed the last dispatch, and the helper is falsy on
    it. *)
Theorem finished_run_final_answer
    (generate : nat → result value) (dispatch : value → result value)
    (fuel : nat) (final : Run) :
  Loop.run generate dispatch fuel initial = Ok final →
  at_ final = end_ →
  generate (length (dispatchCalls final)) = Ok (llmResponse (state final))
  ∧ falsy_on (llmResponse (state final)).
Proof.
  intros Hrun Hend.
  destruct (invariant_run generate dispatch fuel initial final
              (invariant_initial generate) Hrun) as [_ Hat].
  rewrite Hend in Hat. by destruct Hat as (_ & _ & ? & ?).
Qed.

Lemma finished_run_final_answer_witness :
  let first := Fixtures.mockLlmResponseWithToolCall in
  let second := Fixtures.mockFinalLlmResponse in
  let generate := Mocks.resolvedOnce first second in
  let dispatch := Mocks.resolved Fixtures.mockToolCallResult in
  let final := testRun first second Fixtures.mockToolCallResult in
  Loop.run generate dispatch 4 initial = Ok final
  ∧ at_ final = end_
  ∧ generate (length (dispatchCalls final)) = Ok (llmResponse (state final))
  ∧ falsy_on (llmResponse (state final)).
Proof.
  intros first second generate dispatch final.
  split; [reflexivity|]. split; [reflexivity|].
  apply (finished_run_final_answer generate dispatch 4 final); reflexivity.
Defined.

(** X10. The loop goes round as often as the LLM asks for tools: when the
    first [k] responses make the helper truthy and are dispatched without
    failure, and the next response makes it falsy, every run of at least
    [2k + 2] steps ends at [end_] after [k + 1] LLM calls and [k] dispatch
    calls, holding that last response. *)
Theorem run_k_rounds
    (generate : nat → result value) (dispatch : value → result value)
    (k : nat) (last : value) (fuel : nat) :
  (∀ i, i < k → ∃ m data,
     generate i = Ok m ∧ truthy_on m ∧ dispatch m = Ok data) →
  generate k = Ok last →
  falsy_on last →
  2 * k + 2 ≤ fuel →
  ∃ final,
    Loop.run generate dispatch fuel initial = Ok final
    ∧ at_ final = end_
    ∧ generateCalls final = S k
    ∧ length (dispatchCalls final) = k
    ∧ llmResponse (state final) = last.
Proof.
  intros Htools Hlast Hfalsy Hfuel.
  destruct (run_rounds generate dispatch k last Hfalsy initial)
    as (final & Hrun & Hend & Hcalls & Hlen & Hresp); try done.
  exists final. split.
  - by apply (run_enough generate dispatch (2 * k + 2)).
  - by split_and!.
Qed.

Lemma run_k_rounds_witness :
  let call := Fixtures.mockLlmResponseWithToolCall in
  let last := Fixtures.mockFinalLlmResponse in
  let generate := λ n : nat, if decide (n < 3) then Ok call else Ok last in
  let dispatch := Mocks.resolved Fixtures.mockToolCallResult in
  (∀ i, i < 3 → ∃ m data,
     generate i = Ok m ∧ truthy_on m ∧ dispatch m = Ok data)
  ∧ generate 3 = Ok last
  ∧ falsy_on last
  ∧ 2 * 3 + 2 ≤ 8
  ∧ ∃ final,
      Loop.run generate dispatch 8 initial = Ok final
      ∧ at_ final = end_
      ∧ generateCalls final = 4
      ∧ length (dispatchCalls final) = 3
      ∧ llmResponse (state final) = last.
Proof.
  intros call last generate dispatch.
  assert (∀ i, i < 3 → ∃ m data,
            generate i = Ok m ∧ truthy_on m ∧ dispatch m = Ok data) as Htools.
  { intros i Hi. exists call, Fixtures.mockToolCallResult. split_and!.
    - unfold generate. by rewrite decide_True.
    - exists (VBool true). by split.
    - reflexivity. }
  assert (falsy_on last) as Hfalsy by (exists (VBool false); by split).
  split; [exact Htools|]. split; [reflexivity|]. split; [exact Hfalsy|].
  split; [lia|].
  apply (run_k_rounds generate dispatch 3 last 8);
    [exact Htools | reflexivity | exact Hfalsy | lia].
Defined.

(** X11. A step that succeeds rests only at [end_], where it changes
    nothing; from any other place it moves to a different place and
    appends that place to the path. *)
Theorem step_rests_only_at_end
    (generate : nat → result value) (dispatch : value → result value)
    (r r' : Run) :
  Loop.step generate dispatch r = Ok r' →
  (at_ r = end_ ∧ r' = r)
  ∨ (at_ r ≠ end_ ∧ at_ r' ≠ at_ r ∧ places r' = places r ++ [at_ r']).
Proof.
  intros Hstep. destruct (at_ r) eqn:Hplace.
  - right. rewrite step_at_ready in Hstep by done.
    destruct (generate _); [|done]. injection Hstep as <-. by split_and!.
  - right. destruct (detector_cases r) as [Hd | [Hu | [e He]]].
    + rewrite step_detected in Hstep by done.
      destruct (dispatch _); [|done]. injection Hstep as <-. by split_and!.
    + rewrite step_undetected in Hstep by done.
      injection Hstep as <-. by split_and!.
    + by rewrite (step_helper_throw _ _ r e) in Hstep.
  - left. rewrite step_end in Hstep by done. injection Hstep as <-. by split.
Qed.

Lemma step_rests_only_at_end_witness :
  let generate := Mocks.resolved Fixtures.mockLlmResponseNoToolCall in
  let dispatch := Mocks.resolved VUndefined in
  let r := goto prompt_executed
             (assign_llmResponse Fixtures.mockLlmResponseNoToolCall initial) in
  Loop.step generate dispatch r = Ok (goto end_ r)
  ∧ ((at_ r = end_ ∧ goto end_ r = r)
     ∨ (at_ r ≠ end_ ∧ at_ (goto end_ r) ≠ at_ r
        ∧ places (goto end_ r) = places r ++ [at_ (goto end_ r)])).
Proof.
  intros generate dispatch r. split; [reflexivity|].
  apply (step_rests_only_at_end generate dispatch r (goto end_ r)). reflexivity.
Defined.
